(** * passwordpolicy.c: a PostgreSQL password-policy hook

    A shallow embedding of [check_policy], [check_password] (the variant
    for PostgreSQL >= 10 and, in [Legacy], the one for older servers),
    [define_variables] and [_PG_init], followed by the properties of the
    policy that the specification states and by further properties of the
    code. *)

From Stdlib Require Import ZArith List String Ascii Bool Lia.
From Stdlib Require Import Permutation.
Import ListNotations.
Local Open Scope string_scope.
Local Open Scope list_scope.
Local Open Scope Z_scope.

(** ** C integers

    Every counter and threshold of the source is an [int].  They are carried
    as [Z], and every operation that can leave the 32-bit range is followed
    by [to_int], the two's-complement reduction (what the conversion
    [size_t -> int] does, and what signed arithmetic does under the
    [-fwrapv] flag PostgreSQL and its extensions are built with). *)

Definition INT_MAX : Z := 2147483647.
Definition INT_MIN : Z := -2147483648.

Definition to_int (z : Z) : Z :=
  (z + 2147483648) mod 4294967296 - 2147483648.

Definition int_add (a b : Z) : Z := to_int (a + b).

(** [x++] on an [int]. *)
Definition int_incr (x : Z) : Z := int_add x 1.

(** ** C strings

    A [const char *] is represented by the bytes that precede its
    terminating NUL.  The strings the server hands to the hook are
    allocated by it and stay far below 2 GiB, so their length fits an
    [int]; where a property needs that, it says [strlen s <= INT_MAX]. *)

Definition cstring := list ascii.

(** A string literal of the source. *)
Definition lit (s : string) : cstring := list_ascii_of_string s.

(** [(unsigned char) c]. *)
Definition unsigned_char (c : ascii) : Z := Z.of_N (N_of_ascii c).

(** [strlen] returns a [size_t], which never wraps on a string in memory. *)
Definition strlen (s : cstring) : Z := Z.of_nat (List.length s).

Fixpoint starts_with (needle haystack : cstring) : bool :=
  match needle, haystack with
  | [], _ => true
  | _ :: _, [] => false
  | x :: needle', y :: haystack' =>
      Ascii.eqb x y && starts_with needle' haystack'
  end.

(** [strstr(haystack, needle)]: the suffix of [haystack] that starts at the
    first occurrence of [needle], or [None] for the NULL pointer. *)
Fixpoint strstr (haystack needle : cstring) {struct haystack}
  : option cstring :=
  if starts_with needle haystack then Some haystack
  else match haystack with
       | [] => None
       | _ :: haystack' => strstr haystack' needle
       end.

(** A pointer used as a condition: true when it is not NULL. *)
Definition non_null {A : Type} (p : option A) : bool :=
  match p with Some _ => true | None => false end.

(** ** <ctype.h>

    The classification functions belong to the C library and depend on the
    locale of the process; the policy takes them as an interface.  Each maps
    an [unsigned char] value to "nonzero" ([true]) or zero. *)

Record ctype : Type := {
  isalpha : Z -> bool;
  isupper : Z -> bool;
  islower : Z -> bool;
  isdigit : Z -> bool
}.

Definition in_range (lo hi c : Z) : bool := (lo <=? c) && (c <=? hi).

(** The "C" locale: ASCII letters and digits only. *)
Definition C_locale : ctype := {|
  isalpha := fun c => in_range 65 90 c || in_range 97 122 c;
  isupper := in_range 65 90;
  islower := in_range 97 122;
  isdigit := in_range 48 57
|}.

(** ** Error reports

    [ereport(ERROR, (errcode(code), errmsg(fmt, args...)))] leaves the
    current function and every caller; it is modelled as the outcome
    [Raise] carrying the report. *)

Inductive sqlstate : Type := ERRCODE_INVALID_PARAMETER_VALUE.

Record ErrorData : Type := {
  sqlerrcode : sqlstate;
  message : string;        (* the format string given to errmsg *)
  message_args : list Z    (* its %d arguments *)
}.

Inductive outcome : Type :=
| Normal                   (* the function returned *)
| Raise (e : ErrorData).   (* ereport(ERROR, ...) *)

Definition and_then (a b : outcome) : outcome :=
  match a with
  | Normal => b
  | Raise e => Raise e
  end.

Notation "a ;; b" := (and_then a b) (at level 61, right associativity).

(** [if (cond) ereport(ERROR, e);] *)
Definition ereport_if (cond : bool) (e : ErrorData) : outcome :=
  if cond then Raise e else Normal.

Definition invalid_parameter (fmt : string) (args : list Z) : ErrorData :=
  {| sqlerrcode := ERRCODE_INVALID_PARAMETER_VALUE;
     message := fmt;
     message_args := args |}.

(** The reports of the source, under the reason codes of the specification. *)

Definition TooShort : ErrorData :=
  invalid_parameter "password is too short." [].

Definition ContainsUsername : ErrorData :=
  invalid_parameter "password must not contain user name." [].

Definition TooFewDigits (n : Z) : ErrorData :=
  invalid_parameter "password must contain atleast %d numeric characters." [n].

Definition TooFewSpecial (n : Z) : ErrorData :=
  invalid_parameter "password must contain atleast %d special characters." [n].

Definition TooFewUppercase (n : Z) : ErrorData :=
  invalid_parameter "password must contain atleast %d upper case letters." [n].

Definition TooFewLowercase (n : Z) : ErrorData :=
  invalid_parameter "password must contain atleast %d lower case letters." [n].

Definition DictionaryGuessable : ErrorData :=
  invalid_parameter "password is easily cracked." [].

(** The report of the encrypted branch ends without a full stop. *)
Definition EncryptedPasswordMatchesUsername : ErrorData :=
  invalid_parameter "password must not contain user name" [].

Definition newline : string := String (ascii_of_nat 10) EmptyString.

Definition InconsistentThresholds : ErrorData :=
  invalid_parameter
    (String.append "configuration error."
       (String.append newline
          "sum of minimum character requirement exceeds minimum password length."))
    [].

(** The verdicts of the specification. *)
Abbreviation Accept := Normal (only parsing).
Abbreviation Reject := Raise (only parsing).

(** ** The policy variables *)

Record globals : Type := {
  passMinLength : Z;     (* p_policy.min_password_len *)
  passMinSpcChar : Z;    (* p_policy.min_special_chars *)
  passMinNumChar : Z;    (* p_policy.min_numbers *)
  passMinUpperChar : Z;  (* p_policy.min_uppercase_letter *)
  passMinLowerChar : Z   (* p_policy.min_lowercase_letter *)
}.

(** The static initialisers. *)
Definition initial_globals : globals := {|
  passMinLength := 8;
  passMinSpcChar := 2;
  passMinNumChar := 2;
  passMinUpperChar := 2;
  passMinLowerChar := 2
|}.

(** ** check_policy *)

Record tally : Type := {
  letter_count : Z;
  number_count : Z;
  spc_char_count : Z;
  upper_count : Z;
  lower_count : Z
}.

Definition zero_tally : tally := {|
  letter_count := 0;
  number_count := 0;
  spc_char_count := 0;
  upper_count := 0;
  lower_count := 0
|}.

Definition incr_letter (t : tally) : tally := {|
  letter_count := int_incr (letter_count t);
  number_count := number_count t;
  spc_char_count := spc_char_count t;
  upper_count := upper_count t;
  lower_count := lower_count t
|}.

Definition incr_number (t : tally) : tally := {|
  letter_count := letter_count t;
  number_count := int_incr (number_count t);
  spc_char_count := spc_char_count t;
  upper_count := upper_count t;
  lower_count := lower_count t
|}.

Definition incr_spc_char (t : tally) : tally := {|
  letter_count := letter_count t;
  number_count := number_count t;
  spc_char_count := int_incr (spc_char_count t);
  upper_count := upper_count t;
  lower_count := lower_count t
|}.

Definition incr_upper (t : tally) : tally := {|
  letter_count := letter_count t;
  number_count := number_count t;
  spc_char_count := spc_char_count t;
  upper_count := int_incr (upper_count t);
  lower_count := lower_count t
|}.

Definition incr_lower (t : tally) : tally := {|
  letter_count := letter_count t;
  number_count := number_count t;
  spc_char_count := spc_char_count t;
  upper_count := upper_count t;
  lower_count := int_incr (lower_count t)
|}.

(** ** Declarations of the server headers

    [PasswordType] (libpq/crypt.h) and the status codes (c.h). *)

Inductive PasswordType : Type :=
| PASSWORD_TYPE_PLAINTEXT
| PASSWORD_TYPE_MD5
| PASSWORD_TYPE_SCRAM_SHA_256.

(** [password_type == PASSWORD_TYPE_PLAINTEXT]. *)
Definition is_plaintext (password_type : PasswordType) : bool :=
  match password_type with
  | PASSWORD_TYPE_PLAINTEXT => true
  | _ => false
  end.

Definition STATUS_OK : Z := 0.
Definition STATUS_ERROR : Z := -1.

Section Policy.

(** The locale the server runs in. *)
Variable locale : ctype.

(** The body of the [for] loop, on the byte [password[i]]. *)
Definition loop_body (t : tally) (c : ascii) : tally :=
  let uc := unsigned_char c in
  if isalpha locale uc then
    let t := incr_letter t in
    if isupper locale uc then incr_upper t
    else if islower locale uc then incr_lower t
    else t
  else if isdigit locale uc then incr_number t
  else incr_spc_char t.

(** [int pwdlen = strlen(password)]. *)
Definition pwdlen_of (password : cstring) : Z := to_int (strlen password).

(** [for (i = 0; i < pwdlen; i++)] visits [password[0]] ...
    [password[pwdlen - 1]] in this order, and nothing when [pwdlen <= 0]. *)
Definition count_chars (password : cstring) : tally :=
  fold_left loop_body
            (firstn (Z.to_nat (pwdlen_of password)) password)
            zero_tally.

(** The threshold comparisons that end [check_policy]. *)
Definition compare_thresholds (g : globals) (t : tally) : outcome :=
  if number_count t <? passMinNumChar g then
    Raise (TooFewDigits (passMinNumChar g))
  else if spc_char_count t <? passMinSpcChar g then
    Raise (TooFewSpecial (passMinSpcChar g))
  else if upper_count t <? passMinUpperChar g then
    Raise (TooFewUppercase (passMinUpperChar g))
  else if lower_count t <? passMinLowerChar g then
    Raise (TooFewLowercase (passMinLowerChar g))
  else Normal.

Definition check_policy (g : globals) (password : cstring) : outcome :=
  compare_thresholds g (count_chars password).

(** ** check_password (PG_VERSION_NUM >= 100000) *)

(** The server's verification primitive,
    [plain_crypt_verify(role, shadow_pass, client_pass, &logdetail)];
    only its status is used. *)
Variable plain_crypt_verify : cstring -> cstring -> cstring -> Z.

(** [FascistCheck(password, CRACKLIB_DICTPATH)] of cracklib: a diagnostic,
    or [None] for NULL when the dictionary has nothing against the
    password.  [USE_CRACKLIB] is [None] when the macro is not defined. *)
Variable USE_CRACKLIB : option (cstring -> option cstring).

Definition cracklib_check (password : cstring) : outcome :=
  match USE_CRACKLIB with
  | Some FascistCheck =>
      ereport_if (non_null (FascistCheck password)) DictionaryGuessable
  | None => Normal
  end.

Definition check_password (g : globals)
           (username shadow_pass : cstring) (password_type : PasswordType)
           (validuntil_time : Z) (validuntil_null : bool) : outcome :=
  if negb (is_plaintext password_type) then
    ereport_if
      (plain_crypt_verify username shadow_pass username =? STATUS_OK)
      EncryptedPasswordMatchesUsername
  else
    let password := shadow_pass in
    let pwdlen := pwdlen_of password in
    ereport_if (pwdlen <? passMinLength g) TooShort ;;
    ereport_if (non_null (strstr password username)) ContainsUsername ;;
    check_policy g password ;;
    cracklib_check password.

End Policy.

(** ** define_variables and _PG_init

    The five settings are integer GUC variables.  [guc_file] holds the values
    the administrator configured, by name. *)

Definition guc_file := list (string * Z).

Fixpoint guc_lookup (name : string) (conf : guc_file) : option Z :=
  match conf with
  | [] => None
  | (n, v) :: conf' =>
      if String.eqb n name then Some v else guc_lookup name conf'
  end.

(** [DefineCustomIntVariable(name, ..., &var, bootValue, minValue, maxValue,
    ...)], as far as [var] is concerned: the variable takes the configured
    value when it lies within [minValue .. maxValue]; a value outside is
    refused by the server and the boot value stays, as it does when nothing
    is configured. *)
Definition DefineCustomIntVariable (conf : guc_file) (name : string)
           (bootValue minValue maxValue : Z) : Z :=
  match guc_lookup name conf with
  | Some v => if in_range minValue maxValue v then v else bootValue
  | None => bootValue
  end.

(** [define_variables] assigns the five globals and then compares; the
    globals keep their new values when the comparison raises. *)
Definition define_variables (conf : guc_file) : globals * outcome :=
  let g := {|
    passMinLength :=
      DefineCustomIntVariable conf "p_policy.min_password_len" 8 1 INT_MAX;
    passMinSpcChar :=
      DefineCustomIntVariable conf "p_policy.min_special_chars" 2 1 INT_MAX;
    passMinNumChar :=
      DefineCustomIntVariable conf "p_policy.min_numbers" 2 1 INT_MAX;
    passMinUpperChar :=
      DefineCustomIntVariable conf "p_policy.min_uppercase_letter" 2 1 INT_MAX;
    passMinLowerChar :=
      DefineCustomIntVariable conf "p_policy.min_lowercase_letter" 2 1 INT_MAX
  |} in
  (g,
   ereport_if
     (passMinLength g <?
      int_add (int_add (int_add (passMinSpcChar g) (passMinNumChar g))
                       (passMinUpperChar g))
              (passMinLowerChar g))
     InconsistentThresholds).

(** What [_PG_init] reads and writes: the globals, its static flag and the
    server's [check_password_hook] ([true] once it points at
    [check_password]). *)
Record module_state : Type := {
  policy : globals;
  inited : bool;
  check_password_hook : bool
}.

Definition unloaded : module_state := {|
  policy := initial_globals;
  inited := false;
  check_password_hook := false
|}.

Definition _PG_init (conf : guc_file) (st : module_state)
  : module_state * outcome :=
  if inited st then (st, Normal)
  else
    match define_variables conf with
    | (g, Raise e) =>
        ({| policy := g;
            inited := inited st;
            check_password_hook := check_password_hook st |},
         Raise e)
    | (g, Normal) =>
        ({| policy := g; inited := true; check_password_hook := true |},
         Normal)
    end.

(** The configuration that sets all five variables. *)
Definition settings (min_length min_special min_digits min_upper min_lower : Z)
  : guc_file :=
  [ ("p_policy.min_password_len", min_length);
    ("p_policy.min_special_chars", min_special);
    ("p_policy.min_numbers", min_digits);
    ("p_policy.min_uppercase_letter", min_upper);
    ("p_policy.min_lowercase_letter", min_lower) ].

(** ** The vocabulary of the specification *)

(** The five buckets of the character classification. *)
Inductive bucket : Type :=
| Digit
| SpecialChar
| Uppercase
| Lowercase
| CaselessLetter.

Definition bucket_eqb (a b : bucket) : bool :=
  match a, b with
  | Digit, Digit
  | SpecialChar, SpecialChar
  | Uppercase, Uppercase
  | Lowercase, Lowercase
  | CaselessLetter, CaselessLetter => true
  | _, _ => false
  end.

(** The bucket of one byte, in the words of the specification: alphabetic
    bytes are upper case, lower case or neither; other bytes are decimal
    digits or, failing that, special. *)
Definition bucket_of (locale : ctype) (c : ascii) : bucket :=
  let uc := unsigned_char c in
  if isalpha locale uc then
    if isupper locale uc then Uppercase
    else if islower locale uc then Lowercase
    else CaselessLetter
  else if isdigit locale uc then Digit
  else SpecialChar.

(** How many bytes of [s] fall into bucket [b]. *)
Definition bucket_size (locale : ctype) (b : bucket) (s : cstring) : Z :=
  Z.of_nat
    (List.length (filter (fun c => bucket_eqb (bucket_of locale c) b) s)).

(** [username] occurs in [password] as a contiguous run of bytes. *)
Definition contains (password username : cstring) : Prop :=
  exists before after, password = before ++ username ++ after.

(** The threshold rules as an ordered list: tally, minimum, report. *)
Definition threshold_rules (g : globals) (t : tally)
  : list (Z * Z * ErrorData) :=
  [ (number_count t, passMinNumChar g, TooFewDigits (passMinNumChar g));
    (spc_char_count t, passMinSpcChar g, TooFewSpecial (passMinSpcChar g));
    (upper_count t, passMinUpperChar g, TooFewUppercase (passMinUpperChar g));
    (lower_count t, passMinLowerChar g, TooFewLowercase (passMinLowerChar g)) ].

Definition rule_fails (r : Z * Z * ErrorData) : bool :=
  let '(count, minimum, _) := r in count <? minimum.

(** The report of the first rule that fails, if one does. *)
Definition first_failing (g : globals) (t : tally) : option ErrorData :=
  option_map snd (find rule_fails (threshold_rules g t)).

(** A value the declared range [1 .. INT_MAX] of a setting admits. *)
Definition admitted (v : Z) : Prop := 1 <= v <= INT_MAX.

(** The invariant of the counting loop: after the bytes [seen], the tally
    holds their bucket sizes, and [letter_count] the three letter buckets
    together. *)
Definition tally_of (locale : ctype) (t : tally) (seen : cstring) : Prop :=
  number_count t = bucket_size locale Digit seen /\
  spc_char_count t = bucket_size locale SpecialChar seen /\
  upper_count t = bucket_size locale Uppercase seen /\
  lower_count t = bucket_size locale Lowercase seen /\
  letter_count t =
    bucket_size locale Uppercase seen + bucket_size locale Lowercase seen +
    bucket_size locale CaselessLetter seen.

(** Two verification primitives to run the model with: one that verifies
    nothing, one that verifies everything. *)
Definition no_verify : cstring -> cstring -> cstring -> Z :=
  fun _ _ _ => STATUS_ERROR.

Definition always_verify : cstring -> cstring -> cstring -> Z :=
  fun _ _ _ => STATUS_OK.

(** ** check_password (PG_VERSION_NUM < 100000)

    The variant compiled against the servers before version 10.  Its
    [password_type] is an [int], it encrypts the user name itself with
    [pg_md5_encrypt], and besides [ereport] it uses [elog]. *)

Module Legacy.

(** commands/user.h of those servers. *)
Definition PASSWORD_TYPE_PLAINTEXT : Z := 0.
Definition PASSWORD_TYPE_MD5 : Z := 1.

Inductive result : Type :=
| Return                                   (* the function returned *)
| Ereport (e : ErrorData)                  (* ereport(ERROR, ...) *)
| Elog (fmt : string) (args : list Z).     (* elog(ERROR, fmt, args...) *)

(** The outcome of the code the two variants share. *)
Definition lift (o : outcome) : result :=
  match o with
  | Normal => Return
  | Raise e => Ereport e
  end.

(** [strcmp]: negative, zero or positive, comparing bytes as
    [unsigned char]. *)
Fixpoint strcmp (a b : cstring) : Z :=
  match a, b with
  | [], [] => 0
  | [], _ :: _ => -1
  | _ :: _, [] => 1
  | x :: a', y :: b' =>
      if unsigned_char x =? unsigned_char y then strcmp a' b'
      else if unsigned_char x <? unsigned_char y then -1
      else 1
  end.

Section Variant.

Variable locale : ctype.

(** [pg_md5_encrypt(passwd, salt, salt_len, buf)]: the contents of [buf]
    when it returns true, [None] when it returns false. *)
Variable pg_md5_encrypt : cstring -> cstring -> Z -> option cstring.

Variable USE_CRACKLIB : option (cstring -> option cstring).

Definition check_password (g : globals)
           (username password : cstring) (password_type : Z)
           (validuntil_time : Z) (validuntil_null : bool) : result :=
  let namelen := to_int (strlen username) in
  let pwdlen := to_int (strlen password) in
  if password_type =? PASSWORD_TYPE_MD5 then
    match pg_md5_encrypt username username namelen with
    | None => Elog "password encryption failed." []
    | Some encrypted =>
        if strcmp password encrypted =? 0 then
          Ereport (invalid_parameter "password must not contain user name." [])
        else Return
    end
  else if password_type =? PASSWORD_TYPE_PLAINTEXT then
    lift (ereport_if (pwdlen <? passMinLength g) TooShort ;;
          ereport_if (non_null (strstr password username)) ContainsUsername ;;
          check_policy locale g password ;;
          cracklib_check USE_CRACKLIB password)
  else Elog "unrecognized password type: %d." [password_type].

End Variant.

End Legacy.

(** ** More vocabulary *)

(** What the plaintext branch asks of a password, in terms of its bytes. *)
Definition meets_policy (locale : ctype) (g : globals)
           (username password : cstring) : Prop :=
  passMinLength g <= strlen password /\
  ~ contains password username /\
  passMinNumChar g <= bucket_size locale Digit password /\
  passMinSpcChar g <= bucket_size locale SpecialChar password /\
  passMinUpperChar g <= bucket_size locale Uppercase password /\
  passMinLowerChar g <= bucket_size locale Lowercase password.

(** [g] asks for no more than [g'] does. *)
Definition no_stricter (g g' : globals) : Prop :=
  passMinLength g <= passMinLength g' /\
  passMinSpcChar g <= passMinSpcChar g' /\
  passMinNumChar g <= passMinNumChar g' /\
  passMinUpperChar g <= passMinUpperChar g' /\
  passMinLowerChar g <= passMinLowerChar g'.

(** The sum of the four sub-minimums, in Z. *)
Definition sub_minimum_total (g : globals) : Z :=
  passMinSpcChar g + passMinNumChar g + passMinUpperChar g +
  passMinLowerChar g.

(** The five names [define_variables] declares. *)
Definition policy_names : list string :=
  [ "p_policy.min_password_len";
    "p_policy.min_special_chars";
    "p_policy.min_numbers";
    "p_policy.min_uppercase_letter";
    "p_policy.min_lowercase_letter" ].

(** [n] copies of one byte, for [n] in Z. *)
Definition run (c : ascii) (n : Z) : cstring := repeat c (Z.to_nat n).

(** A password made for the thresholds [g]: the digits, special bytes and
    upper-case letters asked for, and lower-case letters up to the minimum
    length. *)
Definition sample_password (g : globals) : cstring :=
  run "0"%char (passMinNumChar g) ++
  run "!"%char (passMinSpcChar g) ++
  run "A"%char (passMinUpperChar g) ++
  run "a"%char (passMinLength g - passMinNumChar g - passMinSpcChar g
                - passMinUpperChar g).

(** An encryption to run the older variant with. *)
Definition mock_md5 : cstring -> cstring -> Z -> option cstring :=
  fun passwd _ _ => Some (lit "md5" ++ passwd).

(** ** The model at work: the scenarios of the specification *)

Example scenario_short :
  check_password C_locale no_verify None initial_globals
                 (lit "alice") (lit "short1!") PASSWORD_TYPE_PLAINTEXT 0 true
  = Reject TooShort.
Proof. reflexivity. Qed.

Example scenario_bob :
  check_password C_locale no_verify None initial_globals
                 (lit "bob") (lit "bobPass12!@") PASSWORD_TYPE_PLAINTEXT 0 true
  = Reject ContainsUsername.
Proof. reflexivity. Qed.

Example scenario_tally :
  count_chars C_locale (lit "Ab12!@Cd") =
  {| letter_count := 4; number_count := 2; spc_char_count := 2;
     upper_count := 2; lower_count := 2 |}.
Proof. reflexivity. Qed.

Example scenario_special_only :
  check_password C_locale no_verify None initial_globals
                 (lit "alice") (lit "ABcd12 3") PASSWORD_TYPE_PLAINTEXT 0 true
  = Reject (TooFewSpecial 2).
Proof. reflexivity. Qed.

Example scenario_defaults_load :
  _PG_init [] unloaded =
  ({| policy := initial_globals; inited := true;
      check_password_hook := true |}, Normal).
Proof. reflexivity. Qed.

(** ** Arithmetic of [int] *)

Lemma to_int_small (z : Z) : INT_MIN <= z <= INT_MAX -> to_int z = z.
Proof.
  unfold to_int, INT_MIN, INT_MAX; intros Hz.
  rewrite Z.mod_small by lia. lia.
Qed.

Lemma to_int_range (z : Z) : INT_MIN <= to_int z <= INT_MAX.
Proof.
  unfold to_int, INT_MIN, INT_MAX.
  pose proof (Z.mod_pos_bound (z + 2147483648) 4294967296 eq_refl). lia.
Qed.

Lemma to_int_le (z : Z) : 0 <= z -> to_int z <= z.
Proof.
  unfold to_int; intros Hz.
  pose proof (Z.mod_le (z + 2147483648) 4294967296). lia.
Qed.

Lemma int_incr_small (x : Z) : 0 <= x < INT_MAX -> int_incr x = x + 1.
Proof.
  intros Hx. unfold int_incr, int_add.
  apply to_int_small. unfold INT_MIN, INT_MAX in *. lia.
Qed.

Lemma strlen_nonneg (s : cstring) : 0 <= strlen s.
Proof. unfold strlen. lia. Qed.

Lemma strlen_app (s1 s2 : cstring) : strlen (s1 ++ s2) = strlen s1 + strlen s2.
Proof. unfold strlen. rewrite length_app. lia. Qed.

Lemma pwdlen_of_small (password : cstring) :
  strlen password <= INT_MAX -> pwdlen_of password = strlen password.
Proof.
  intros H. unfold pwdlen_of. apply to_int_small.
  pose proof (strlen_nonneg password). unfold INT_MIN. lia.
Qed.

(** ** strstr finds exactly the contiguous occurrences *)

Lemma starts_with_app (needle rest : cstring) :
  starts_with needle (needle ++ rest) = true.
Proof.
  induction needle as [|x needle IH]; simpl; [reflexivity|].
  rewrite Ascii.eqb_refl. exact IH.
Qed.

Lemma starts_with_inv (needle haystack : cstring) :
  starts_with needle haystack = true ->
  exists rest, haystack = needle ++ rest.
Proof.
  revert haystack.
  induction needle as [|x needle IH]; intros haystack H.
  - exists haystack. reflexivity.
  - destruct haystack as [|y haystack]; simpl in H; [discriminate|].
    apply andb_prop in H. destruct H as [Hxy Hrest].
    apply Ascii.eqb_eq in Hxy. subst y.
    destruct (IH _ Hrest) as [rest ->].
    exists rest. reflexivity.
Qed.

Lemma strstr_unfold (haystack needle : cstring) :
  strstr haystack needle =
  if starts_with needle haystack then Some haystack
  else match haystack with
       | [] => None
       | _ :: haystack' => strstr haystack' needle
       end.
Proof. destruct haystack; reflexivity. Qed.

Lemma strstr_finds (before needle after : cstring) :
  non_null (strstr (before ++ needle ++ after) needle) = true.
Proof.
  induction before as [|b before IH].
  - simpl app. rewrite strstr_unfold, starts_with_app. reflexivity.
  - rewrite strstr_unfold.
    destruct (starts_with needle ((b :: before) ++ needle ++ after));
      [reflexivity | exact IH].
Qed.

Lemma strstr_found (haystack needle : cstring) :
  non_null (strstr haystack needle) = true -> contains haystack needle.
Proof.
  induction haystack as [|h haystack IH]; rewrite strstr_unfold;
    destruct (starts_with needle _) eqn:Hsw; intros H.
  - apply starts_with_inv in Hsw. destruct Hsw as [rest Hrest].
    exists [], rest. exact Hrest.
  - discriminate.
  - apply starts_with_inv in Hsw. destruct Hsw as [rest Hrest].
    exists [], rest. exact Hrest.
  - destruct (IH H) as (before & after & ->).
    exists (h :: before), after. reflexivity.
Qed.

Lemma strstr_contains (haystack needle : cstring) :
  non_null (strstr haystack needle) = true <-> contains haystack needle.
Proof.
  split.
  - apply strstr_found.
  - intros (before & after & ->). apply strstr_finds.
Qed.

(** ** The loop computes the bucket sizes *)

Section Counting.

Variable locale : ctype.

Local Abbreviation size := (bucket_size locale).

Lemma bucket_size_nil (b : bucket) : bucket_size locale b [] = 0.
Proof. reflexivity. Qed.

Lemma bucket_size_snoc (b : bucket) (s : cstring) (c : ascii) :
  bucket_size locale b (s ++ [c]) =
  bucket_size locale b s +
  (if bucket_eqb (bucket_of locale c) b then 1 else 0).
Proof.
  unfold bucket_size. rewrite filter_app, length_app. simpl.
  destruct (bucket_eqb (bucket_of locale c) b); simpl; lia.
Qed.

Lemma bucket_size_nonneg (b : bucket) (s : cstring) :
  0 <= bucket_size locale b s.
Proof. unfold bucket_size. lia. Qed.

(** Every byte lies in one bucket and no other. *)
Lemma bucket_sizes_total (s : cstring) :
  size Digit s + size SpecialChar s + size Uppercase s +
  size Lowercase s + size CaselessLetter s = strlen s.
Proof.
  induction s as [|c s IH] using rev_ind; [reflexivity|].
  rewrite !bucket_size_snoc, strlen_app.
  change (strlen [c]) with 1.
  destruct (bucket_of locale c); simpl; lia.
Qed.

Lemma tally_of_nil : tally_of locale zero_tally [].
Proof. repeat split. Qed.

Lemma loop_body_tally (t : tally) (seen : cstring) (c : ascii) :
  tally_of locale t seen ->
  strlen (seen ++ [c]) <= INT_MAX ->
  tally_of locale (loop_body locale t c) (seen ++ [c]).
Proof.
  intros (Hn & Hs & Hu & Hl & Hletter) Hlen.
  rewrite strlen_app in Hlen. change (strlen [c]) with 1 in Hlen.
  pose proof (bucket_sizes_total seen) as Htotal.
  pose proof (bucket_size_nonneg Digit seen).
  pose proof (bucket_size_nonneg SpecialChar seen).
  pose proof (bucket_size_nonneg Uppercase seen).
  pose proof (bucket_size_nonneg Lowercase seen).
  pose proof (bucket_size_nonneg CaselessLetter seen).
  unfold tally_of.
  rewrite !bucket_size_snoc.
  unfold loop_body, bucket_of.
  destruct (isalpha locale (unsigned_char c));
    [ destruct (isupper locale (unsigned_char c));
      [| destruct (islower locale (unsigned_char c)) ]
    | destruct (isdigit locale (unsigned_char c)) ];
    simpl; rewrite ?int_incr_small by lia; lia.
Qed.

Lemma fold_loop_body_tally (rest seen : cstring) (t : tally) :
  tally_of locale t seen ->
  strlen (seen ++ rest) <= INT_MAX ->
  tally_of locale (fold_left (loop_body locale) rest t) (seen ++ rest).
Proof.
  revert seen t.
  induction rest as [|c rest IH]; intros seen t Ht Hlen; simpl.
  - rewrite app_nil_r. exact Ht.
  - replace (seen ++ c :: rest) with ((seen ++ [c]) ++ rest) in *
      by (rewrite <- app_assoc; reflexivity).
    apply IH; [| exact Hlen].
    apply loop_body_tally; [exact Ht|].
    rewrite strlen_app in Hlen.
    pose proof (strlen_nonneg rest). lia.
Qed.

Lemma count_chars_tally (password : cstring) :
  strlen password <= INT_MAX ->
  tally_of locale (count_chars locale password) password.
Proof.
  intros Hlen. unfold count_chars.
  rewrite (pwdlen_of_small _ Hlen).
  unfold strlen. rewrite Nat2Z.id, firstn_all.
  apply (fold_loop_body_tally password [] zero_tally tally_of_nil).
  exact Hlen.
Qed.

End Counting.

(** The if-else chain of [check_policy] is the ordered rule list. *)
Lemma compare_thresholds_first_failing (g : globals) (t : tally) :
  compare_thresholds g t =
  match first_failing g t with
  | Some e => Raise e
  | None => Normal
  end.
Proof.
  unfold compare_thresholds, first_failing, threshold_rules; simpl.
  destruct (number_count t <? passMinNumChar g); [reflexivity|].
  destruct (spc_char_count t <? passMinSpcChar g); [reflexivity|].
  destruct (upper_count t <? passMinUpperChar g); [reflexivity|].
  destruct (lower_count t <? passMinLowerChar g); reflexivity.
Qed.

(** ** The properties of [check_password] *)

Section Verdicts.

Variable locale : ctype.
Variable plain_crypt_verify : cstring -> cstring -> cstring -> Z.
Variable USE_CRACKLIB : option (cstring -> option cstring).

Local Abbreviation evaluate :=
  (check_password locale plain_crypt_verify USE_CRACKLIB).

(** What is left of [check_password] for a plaintext password once the
    length and user-name checks have passed. *)
Lemma plaintext_after_guards (g : globals) (username password : cstring)
      (validuntil_time : Z) (validuntil_null : bool) :
  passMinLength g <= pwdlen_of password ->
  strstr password username = None ->
  evaluate g username password PASSWORD_TYPE_PLAINTEXT
           validuntil_time validuntil_null =
  and_then (check_policy locale g password)
           (cracklib_check USE_CRACKLIB password).
Proof.
  intros Hlen Hname. unfold check_password. simpl.
  apply Z.ltb_ge in Hlen. rewrite Hlen, Hname. reflexivity.
Qed.

(** A password that passes the length check and in which [strstr] finds
    the user name. *)
Lemma strstr_hit_rejected (g : globals) (username password : cstring)
      (validuntil_time : Z) (validuntil_null : bool) :
  passMinLength g <= pwdlen_of password ->
  non_null (strstr password username) = true ->
  evaluate g username password PASSWORD_TYPE_PLAINTEXT
           validuntil_time validuntil_null = Reject ContainsUsername.
Proof.
  intros Hlen Hname. unfold check_password. simpl.
  apply Z.ltb_ge in Hlen. rewrite Hlen, Hname. reflexivity.
Qed.

(** C2: a plaintext password whose length is strictly below
    [passMinLength] is rejected as too short, whatever the user name and
    whatever the bytes of the password. *)
Theorem too_short_rejected (g : globals) (username password : cstring)
        (validuntil_time : Z) (validuntil_null : bool) :
  strlen password < passMinLength g ->
  evaluate g username password PASSWORD_TYPE_PLAINTEXT
           validuntil_time validuntil_null = Reject TooShort.
Proof.
  intros Hshort. unfold check_password. simpl.
  assert (Hlt : (pwdlen_of password <? passMinLength g) = true).
  { apply Z.ltb_lt. unfold pwdlen_of.
    pose proof (to_int_le _ (strlen_nonneg password)). lia. }
  rewrite Hlt. reflexivity.
Qed.

(** C3: a plaintext password that is long enough (its length fitting an
    [int]) and contains the user name as a contiguous, case-sensitive run
    of bytes is rejected with ContainsUsername, whatever its composition. *)
Theorem containing_username_rejected (g : globals)
        (username password : cstring)
        (validuntil_time : Z) (validuntil_null : bool) :
  contains password username ->
  passMinLength g <= strlen password ->
  strlen password <= INT_MAX ->
  evaluate g username password PASSWORD_TYPE_PLAINTEXT
           validuntil_time validuntil_null = Reject ContainsUsername.
Proof.
  intros Hsub Hmin Hmax.
  apply strstr_hit_rejected.
  - rewrite (pwdlen_of_small _ Hmax). exact Hmin.
  - apply strstr_contains. exact Hsub.
Qed.

(** C8: for a credential that is not plaintext the verdict is decided by
    [plain_crypt_verify] on the user name alone: a successful verification
    rejects with EncryptedPasswordMatchesUsername, anything else accepts;
    neither the thresholds nor the dictionary take part. *)
Theorem encrypted_only_verified (g : globals)
        (username shadow_pass : cstring) (password_type : PasswordType)
        (validuntil_time : Z) (validuntil_null : bool) :
  password_type <> PASSWORD_TYPE_PLAINTEXT ->
  evaluate g username shadow_pass password_type
           validuntil_time validuntil_null =
  if plain_crypt_verify username shadow_pass username =? STATUS_OK
  then Reject EncryptedPasswordMatchesUsername
  else Accept.
Proof.
  intros Htype. unfold check_password.
  destruct password_type; [contradiction | reflexivity | reflexivity].
Qed.

(** C9: with the empty user name every plaintext password that is long
    enough (its length fitting an [int]) is rejected with ContainsUsername,
    and no plaintext password at all is accepted. *)
Theorem empty_username_never_accepted (g : globals) (password : cstring)
        (validuntil_time : Z) (validuntil_null : bool) :
  (passMinLength g <= strlen password ->
   strlen password <= INT_MAX ->
   evaluate g [] password PASSWORD_TYPE_PLAINTEXT
            validuntil_time validuntil_null = Reject ContainsUsername) /\
  evaluate g [] password PASSWORD_TYPE_PLAINTEXT
           validuntil_time validuntil_null <> Accept.
Proof.
  split.
  - intros Hmin Hmax.
    apply strstr_hit_rejected.
    + rewrite (pwdlen_of_small _ Hmax). exact Hmin.
    + rewrite strstr_unfold. reflexivity.
  - unfold check_password. simpl.
    destruct (pwdlen_of password <? passMinLength g);
      [discriminate|]. simpl.
    rewrite strstr_unfold. simpl. discriminate.
Qed.

(** C10: the two expiration arguments have no influence on the verdict. *)
Theorem validuntil_ignored (g : globals)
        (username shadow_pass : cstring) (password_type : PasswordType)
        (validuntil_time validuntil_time' : Z)
        (validuntil_null validuntil_null' : bool) :
  evaluate g username shadow_pass password_type
           validuntil_time validuntil_null =
  evaluate g username shadow_pass password_type
           validuntil_time' validuntil_null'.
Proof. reflexivity. Qed.

End Verdicts.

(** The theorems above at concrete passwords. *)

Lemma too_short_rejected_witness :
  strlen (lit "short1!") < passMinLength initial_globals /\
  check_password C_locale no_verify None initial_globals
                 (lit "alice") (lit "short1!") PASSWORD_TYPE_PLAINTEXT 0 true
  = Reject TooShort.
Proof.
  split; [reflexivity|].
  apply (too_short_rejected C_locale no_verify None initial_globals
                            (lit "alice") (lit "short1!") 0 true).
  reflexivity.
Defined.

Lemma containing_username_rejected_witness :
  contains (lit "bobPass12!@") (lit "bob") /\
  check_password C_locale no_verify None initial_globals
                 (lit "bob") (lit "bobPass12!@") PASSWORD_TYPE_PLAINTEXT 0 true
  = Reject ContainsUsername.
Proof.
  assert (H : contains (lit "bobPass12!@") (lit "bob")).
  { exists [], (lit "Pass12!@"). reflexivity. }
  split; [exact H|].
  apply (containing_username_rejected C_locale no_verify None initial_globals
           (lit "bob") (lit "bobPass12!@") 0 true H).
  - vm_compute. discriminate.
  - vm_compute. discriminate.
Defined.

Lemma encrypted_only_verified_witness :
  check_password C_locale always_verify None initial_globals
                 (lit "alice") (lit "md5abc") PASSWORD_TYPE_MD5 0 true
  = Reject EncryptedPasswordMatchesUsername /\
  check_password C_locale no_verify None initial_globals
                 (lit "alice") (lit "md5abc") PASSWORD_TYPE_SCRAM_SHA_256 0 true
  = Accept.
Proof.
  split.
  - apply (encrypted_only_verified C_locale always_verify None initial_globals
             (lit "alice") (lit "md5abc") PASSWORD_TYPE_MD5 0 true).
    discriminate.
  - apply (encrypted_only_verified C_locale no_verify None initial_globals
             (lit "alice") (lit "md5abc") PASSWORD_TYPE_SCRAM_SHA_256 0 true).
    discriminate.
Defined.

Lemma empty_username_never_accepted_witness :
  check_password C_locale no_verify None initial_globals
                 [] (lit "Ab12!@Cd") PASSWORD_TYPE_PLAINTEXT 0 true
  = Reject ContainsUsername.
Proof.
  apply (empty_username_never_accepted C_locale no_verify None initial_globals
           (lit "Ab12!@Cd") 0 true).
  - vm_compute. discriminate.
  - vm_compute. discriminate.
Defined.

(** C4: the single pass puts every byte of the password (its length fitting
    an [int]) into exactly one of the buckets digit, special, upper case,
    lower case and letter of neither case, so the five counts add up to the
    length of the password. *)
Theorem classification_partition (locale : ctype) (password : cstring) :
  strlen password <= INT_MAX ->
  let t := count_chars locale password in
  let neither := letter_count t - upper_count t - lower_count t in
  number_count t = bucket_size locale Digit password /\
  spc_char_count t = bucket_size locale SpecialChar password /\
  upper_count t = bucket_size locale Uppercase password /\
  lower_count t = bucket_size locale Lowercase password /\
  neither = bucket_size locale CaselessLetter password /\
  number_count t + spc_char_count t + upper_count t + lower_count t + neither
  = strlen password.
Proof.
  intros Hlen t neither. subst neither t.
  destruct (count_chars_tally locale password Hlen)
    as (Hn & Hs & Hu & Hl & Hletter).
  pose proof (bucket_sizes_total locale password) as Htotal.
  repeat split; try assumption; lia.
Qed.

Lemma classification_partition_witness :
  let t := count_chars C_locale (lit "Ab12!@Cd") in
  number_count t + spc_char_count t + upper_count t + lower_count t +
  (letter_count t - upper_count t - lower_count t) = 8.
Proof.
  assert (Hlen : strlen (lit "Ab12!@Cd") <= INT_MAX)
    by (vm_compute; discriminate).
  exact (proj2 (proj2 (proj2 (proj2 (proj2
           (classification_partition C_locale (lit "Ab12!@Cd") Hlen)))))).
Defined.

(** C1: once the length and user-name checks have passed, the tallies are
    compared with the thresholds in the order digits, special, upper case,
    lower case and the verdict is the report of the first comparison that
    fails; "AAAAAAAA" under the default thresholds is rejected for its
    digits. *)
Theorem first_failing_threshold_reported
        (locale : ctype)
        (plain_crypt_verify : cstring -> cstring -> cstring -> Z)
        (USE_CRACKLIB : option (cstring -> option cstring))
        (username : cstring) (validuntil_time : Z) (validuntil_null : bool) :
  (forall (g : globals) (password : cstring),
      passMinLength g <= pwdlen_of password ->
      strstr password username = None ->
      check_password locale plain_crypt_verify USE_CRACKLIB g
                     username password PASSWORD_TYPE_PLAINTEXT
                     validuntil_time validuntil_null =
      match first_failing g (count_chars locale password) with
      | Some e => Reject e
      | None => cracklib_check USE_CRACKLIB password
      end) /\
  (strstr (lit "AAAAAAAA") username = None ->
   check_password C_locale plain_crypt_verify USE_CRACKLIB initial_globals
                  username (lit "AAAAAAAA") PASSWORD_TYPE_PLAINTEXT
                  validuntil_time validuntil_null =
   Reject (TooFewDigits 2)).
Proof.
  split.
  - intros g password Hlen Hname.
    rewrite plaintext_after_guards by assumption.
    unfold check_policy. rewrite compare_thresholds_first_failing.
    destruct (first_failing g (count_chars locale password)); reflexivity.
  - intros Hname.
    rewrite plaintext_after_guards;
      [reflexivity | vm_compute; discriminate | exact Hname].
Qed.

Lemma first_failing_threshold_reported_witness :
  check_password C_locale no_verify None initial_globals
                 (lit "alice") (lit "Ab12!@CD") PASSWORD_TYPE_PLAINTEXT 0 true
  = Reject (TooFewLowercase 2) /\
  check_password C_locale no_verify None initial_globals
                 (lit "alice") (lit "AAAAAAAA") PASSWORD_TYPE_PLAINTEXT 0 true
  = Reject (TooFewDigits 2).
Proof.
  destruct (first_failing_threshold_reported
              C_locale no_verify None (lit "alice") 0 true) as [Hany Hexample].
  split.
  - apply (Hany initial_globals (lit "Ab12!@CD")).
    + vm_compute. discriminate.
    + reflexivity.
  - apply Hexample. reflexivity.
Defined.

(** C7: under the default thresholds, user "alice" and the plaintext
    password "Ab12!@Cd" are accepted (cracklib, where compiled in, having
    nothing against the password). *)
Theorem default_accepts_Ab12
        (plain_crypt_verify : cstring -> cstring -> cstring -> Z)
        (USE_CRACKLIB : option (cstring -> option cstring))
        (validuntil_time : Z) (validuntil_null : bool) :
  cracklib_check USE_CRACKLIB (lit "Ab12!@Cd") = Normal ->
  check_password C_locale plain_crypt_verify USE_CRACKLIB initial_globals
                 (lit "alice") (lit "Ab12!@Cd") PASSWORD_TYPE_PLAINTEXT
                 validuntil_time validuntil_null = Accept.
Proof.
  intros Hdict.
  rewrite plaintext_after_guards;
    [| vm_compute; discriminate | reflexivity].
  replace (check_policy C_locale initial_globals (lit "Ab12!@Cd"))
    with Normal by reflexivity.
  exact Hdict.
Qed.

Lemma default_accepts_Ab12_witness :
  check_password C_locale no_verify None initial_globals
                 (lit "alice") (lit "Ab12!@Cd") PASSWORD_TYPE_PLAINTEXT 0 true
  = Accept.
Proof.
  apply (default_accepts_Ab12 no_verify None 0 true). reflexivity.
Defined.

(** ** The properties of the configuration *)

Lemma in_range_admitted (v : Z) : in_range 1 INT_MAX v = true <-> admitted v.
Proof.
  unfold in_range, admitted.
  rewrite andb_true_iff, !Z.leb_le. reflexivity.
Qed.

(** A setting is taken over exactly when its declared range admits it; the
    variable is within the range in any case. *)
Lemma DefineCustomIntVariable_range (conf : guc_file) (name : string) :
  admitted (DefineCustomIntVariable conf name 2 1 INT_MAX) /\
  forall v, guc_lookup name conf = Some v ->
            (DefineCustomIntVariable conf name 2 1 INT_MAX = v <-> admitted v).
Proof.
  unfold DefineCustomIntVariable.
  destruct (guc_lookup name conf) as [v|].
  - destruct (in_range 1 INT_MAX v) eqn:Hv.
    + apply in_range_admitted in Hv. split; [exact Hv|].
      intros v' [= <-]. tauto.
    + assert (Hnot : ~ admitted v).
      { intros H. apply in_range_admitted in H. congruence. }
      split; [unfold admitted, INT_MAX; lia|].
      intros v' [= <-]. split; [|tauto].
      intros <-. unfold admitted, INT_MAX. lia.
  - split; [unfold admitted, INT_MAX; lia | discriminate].
Qed.

(** On a configuration that sets all five variables to admitted values,
    each definition yields the configured value. *)
Lemma settings_taken (l s d u lo bootValue : Z) :
  admitted l -> admitted s -> admitted d -> admitted u -> admitted lo ->
  let conf := settings l s d u lo in
  DefineCustomIntVariable conf "p_policy.min_password_len"
                          bootValue 1 INT_MAX = l /\
  DefineCustomIntVariable conf "p_policy.min_special_chars"
                          bootValue 1 INT_MAX = s /\
  DefineCustomIntVariable conf "p_policy.min_numbers"
                          bootValue 1 INT_MAX = d /\
  DefineCustomIntVariable conf "p_policy.min_uppercase_letter"
                          bootValue 1 INT_MAX = u /\
  DefineCustomIntVariable conf "p_policy.min_lowercase_letter"
                          bootValue 1 INT_MAX = lo.
Proof.
  intros Hl Hs Hd Hu Hlo conf.
  apply in_range_admitted in Hl, Hs, Hd, Hu, Hlo.
  unfold DefineCustomIntVariable, conf, settings. simpl guc_lookup.
  cbv iota beta. rewrite Hl, Hs, Hd, Hu, Hlo. repeat split.
Qed.

(** With all five settings admitted, the globals are the settings. *)
Lemma define_variables_globals
      (min_length min_special min_digits min_upper min_lower : Z) :
  admitted min_length -> admitted min_special -> admitted min_digits ->
  admitted min_upper -> admitted min_lower ->
  fst (define_variables
         (settings min_length min_special min_digits min_upper min_lower)) =
  {| passMinLength := min_length;
     passMinSpcChar := min_special;
     passMinNumChar := min_digits;
     passMinUpperChar := min_upper;
     passMinLowerChar := min_lower |}.
Proof.
  intros Hl Hs Hd Hu Hlo. unfold define_variables. cbn [fst].
  destruct (settings_taken _ _ _ _ _ 8 Hl Hs Hd Hu Hlo) as (-> & _).
  destruct (settings_taken _ _ _ _ _ 2 Hl Hs Hd Hu Hlo)
    as (_ & -> & -> & -> & ->).
  reflexivity.
Qed.

(** The sum of the source, when it does not leave the range of [int]. *)
Lemma sub_minimum_sum_exact (s d u lo : Z) :
  admitted s -> admitted d -> admitted u -> admitted lo ->
  s + d + u + lo <= INT_MAX ->
  int_add (int_add (int_add s d) u) lo = s + d + u + lo.
Proof.
  unfold admitted, int_add; intros Hs Hd Hu Hlo Hsum.
  rewrite (to_int_small (s + d)) by (unfold INT_MIN; lia).
  rewrite (to_int_small (s + d + u)) by (unfold INT_MIN; lia).
  apply to_int_small. unfold INT_MIN. lia.
Qed.

Lemma define_variables_outcome
      (min_length min_special min_digits min_upper min_lower : Z) :
  admitted min_length -> admitted min_special -> admitted min_digits ->
  admitted min_upper -> admitted min_lower ->
  min_special + min_digits + min_upper + min_lower <= INT_MAX ->
  snd (define_variables
         (settings min_length min_special min_digits min_upper min_lower)) =
  ereport_if
    (min_length <? min_special + min_digits + min_upper + min_lower)
    InconsistentThresholds.
Proof.
  intros Hl Hs Hd Hu Hlo Hsum. unfold define_variables. cbn [snd].
  cbn [passMinLength passMinSpcChar passMinNumChar
       passMinUpperChar passMinLowerChar].
  destruct (settings_taken _ _ _ _ _ 8 Hl Hs Hd Hu Hlo) as (-> & _).
  destruct (settings_taken _ _ _ _ _ 2 Hl Hs Hd Hu Hlo)
    as (_ & -> & -> & -> & ->).
  rewrite sub_minimum_sum_exact by assumption.
  reflexivity.
Qed.

(** The sum of the source is computed in [int]: two sub-minimums of
    [INT_MAX] and two of 1 add up to 0, and the comparison passes. *)
Example threshold_sum_wraps :
  snd (define_variables (settings 8 INT_MAX INT_MAX 1 1)) = Normal.
Proof. reflexivity. Qed.

(** C5, as stated, fails: the settings 4, 0, 0, 2, 2 have a sum of
    sub-minimums within the minimum length, and loading them raises the
    configuration error, because 0 is outside the declared range of a
    sub-minimum and the boot value 2 stays. *)
Lemma sum_within_length_refused :
  0 + 0 + 2 + 2 <= 4 /\
  snd (_PG_init (settings 4 0 0 2 2) unloaded) = Raise InconsistentThresholds.
Proof. split; [lia | reflexivity]. Qed.

(** C5, amended: for settings within their declared range [1 .. INT_MAX],
    a sum of sub-minimums (itself within [int]) above the minimum length
    makes the load raise the configuration error and leaves the password
    hook unset, the settings 5, 2, 2, 2, 2 among them; a sum within the
    minimum length is accepted and installs the hook. *)
Theorem threshold_sum_checked_at_load
        (min_length min_special min_digits min_upper min_lower : Z) :
  admitted min_length -> admitted min_special -> admitted min_digits ->
  admitted min_upper -> admitted min_lower ->
  let conf :=
    settings min_length min_special min_digits min_upper min_lower in
  let g := {| passMinLength := min_length;
              passMinSpcChar := min_special;
              passMinNumChar := min_digits;
              passMinUpperChar := min_upper;
              passMinLowerChar := min_lower |} in
  (min_special + min_digits + min_upper + min_lower <= INT_MAX ->
   min_length < min_special + min_digits + min_upper + min_lower ->
   _PG_init conf unloaded =
   ({| policy := g; inited := false; check_password_hook := false |},
    Raise InconsistentThresholds)) /\
  (min_special + min_digits + min_upper + min_lower <= min_length ->
   _PG_init conf unloaded =
   ({| policy := g; inited := true; check_password_hook := true |},
    Normal)) /\
  _PG_init (settings 5 2 2 2 2) unloaded =
  ({| policy := {| passMinLength := 5;
                   passMinSpcChar := 2;
                   passMinNumChar := 2;
                   passMinUpperChar := 2;
                   passMinLowerChar := 2 |};
      inited := false;
      check_password_hook := false |},
   Raise InconsistentThresholds).
Proof.
  intros Hl Hs Hd Hu Hlo conf g.
  pose proof (define_variables_globals _ _ _ _ _ Hl Hs Hd Hu Hlo) as Hg.
  fold conf g in Hg.
  split; [| split; [| reflexivity]].
  - intros Hfit Habove.
    pose proof (define_variables_outcome _ _ _ _ _ Hl Hs Hd Hu Hlo Hfit)
      as Hout.
    fold conf in Hout. apply Z.ltb_lt in Habove. rewrite Habove in Hout.
    unfold _PG_init. cbn [inited unloaded].
    destruct (define_variables conf) as [g' out].
    cbn [fst snd] in Hg, Hout. subst g' out. reflexivity.
  - intros Hwithin.
    assert (Hfit : min_special + min_digits + min_upper + min_lower
                   <= INT_MAX) by (unfold admitted in Hl; lia).
    pose proof (define_variables_outcome _ _ _ _ _ Hl Hs Hd Hu Hlo Hfit)
      as Hout.
    fold conf in Hout. apply Z.ltb_ge in Hwithin. rewrite Hwithin in Hout.
    unfold _PG_init. cbn [inited unloaded].
    destruct (define_variables conf) as [g' out].
    cbn [fst snd] in Hg, Hout. subst g' out. reflexivity.
Qed.

Lemma threshold_sum_checked_at_load_witness :
  snd (_PG_init (settings 8 2 2 2 3) unloaded) = Raise InconsistentThresholds
  /\
  snd (_PG_init (settings 12 3 3 3 3) unloaded) = Normal.
Proof.
  split.
  - refine (f_equal snd
      (proj1 (threshold_sum_checked_at_load 8 2 2 2 3 _ _ _ _ _) _ _));
      vm_compute; try split; congruence.
  - refine (f_equal snd
      (proj1 (proj2 (threshold_sum_checked_at_load 12 3 3 3 3 _ _ _ _ _)) _));
      vm_compute; try split; congruence.
Defined.

(** A setting outside the declared range, like a setting that is absent,
    leaves the variable at its boot value. *)
Lemma DefineCustomIntVariable_refused (conf : guc_file) (name : string)
      (bootValue : Z) :
  (forall v, guc_lookup name conf = Some v -> ~ admitted v ->
             DefineCustomIntVariable conf name bootValue 1 INT_MAX
             = bootValue) /\
  (guc_lookup name conf = None ->
   DefineCustomIntVariable conf name bootValue 1 INT_MAX = bootValue).
Proof.
  unfold DefineCustomIntVariable. split.
  - intros v -> Hnot.
    destruct (in_range 1 INT_MAX v) eqn:Hv; [|reflexivity].
    apply in_range_admitted in Hv. contradiction.
  - intros ->. reflexivity.
Qed.

(** C6, as stated, fails: with every sub-minimum set to 0 (minimum length 8,
    so the sum is within it) none of the four variables becomes 0; each
    stays at its boot value 2. *)
Lemma zero_sub_minimum_refused :
  passMinSpcChar (fst (define_variables (settings 8 0 0 0 0))) <> 0 /\
  passMinNumChar (fst (define_variables (settings 8 0 0 0 0))) <> 0 /\
  passMinUpperChar (fst (define_variables (settings 8 0 0 0 0))) <> 0 /\
  passMinLowerChar (fst (define_variables (settings 8 0 0 0 0))) <> 0 /\
  fst (define_variables (settings 8 0 0 0 0)) = initial_globals.
Proof. repeat split; discriminate. Qed.

(** C6, amended: each of the four sub-minimum variables takes over exactly
    the configured values from 1 to INT_MAX, and is within that range
    whatever is configured; 0 is not among them, and a configured value
    outside the range (0 included) leaves the variable at its boot
    value 2. *)
Theorem sub_minimum_range (conf : guc_file) :
  (admitted (passMinSpcChar (fst (define_variables conf))) /\
   forall v, guc_lookup "p_policy.min_special_chars" conf = Some v ->
             (passMinSpcChar (fst (define_variables conf)) = v <->
              admitted v)) /\
  (admitted (passMinNumChar (fst (define_variables conf))) /\
   forall v, guc_lookup "p_policy.min_numbers" conf = Some v ->
             (passMinNumChar (fst (define_variables conf)) = v <->
              admitted v)) /\
  (admitted (passMinUpperChar (fst (define_variables conf))) /\
   forall v, guc_lookup "p_policy.min_uppercase_letter" conf = Some v ->
             (passMinUpperChar (fst (define_variables conf)) = v <->
              admitted v)) /\
  (admitted (passMinLowerChar (fst (define_variables conf))) /\
   forall v, guc_lookup "p_policy.min_lowercase_letter" conf = Some v ->
             (passMinLowerChar (fst (define_variables conf)) = v <->
              admitted v)) /\
  ~ admitted 0 /\
  (forall v, guc_lookup "p_policy.min_special_chars" conf = Some v ->
             ~ admitted v ->
             passMinSpcChar (fst (define_variables conf)) = 2) /\
  (forall v, guc_lookup "p_policy.min_numbers" conf = Some v ->
             ~ admitted v ->
             passMinNumChar (fst (define_variables conf)) = 2) /\
  (forall v, guc_lookup "p_policy.min_uppercase_letter" conf = Some v ->
             ~ admitted v ->
             passMinUpperChar (fst (define_variables conf)) = 2) /\
  (forall v, guc_lookup "p_policy.min_lowercase_letter" conf = Some v ->
             ~ admitted v ->
             passMinLowerChar (fst (define_variables conf)) = 2).
Proof.
  unfold define_variables. cbn [fst passMinSpcChar passMinNumChar
                                    passMinUpperChar passMinLowerChar].
  do 4 (split; [apply DefineCustomIntVariable_range|]).
  split; [unfold admitted; lia|].
  repeat split; apply DefineCustomIntVariable_refused.
Qed.

Lemma sub_minimum_range_witness :
  passMinSpcChar (fst (define_variables (settings 8 1 2 2 2))) = 1 /\
  passMinSpcChar (fst (define_variables (settings 8 0 2 2 2))) = 2.
Proof.
  split.
  - apply (proj2 (proj1 (sub_minimum_range (settings 8 1 2 2 2))) 1 eq_refl).
    unfold admitted, INT_MAX. lia.
  - apply (proj1 (proj2 (proj2 (proj2 (proj2 (proj2
             (sub_minimum_range (settings 8 0 2 2 2))))))) 0 eq_refl).
    unfold admitted. lia.
Defined.

(** * Further properties of the code *)

(** ** Sequencing of checks *)

Lemma and_then_normal (a b : outcome) :
  and_then a b = Normal <-> a = Normal /\ b = Normal.
Proof.
  destruct a; simpl; split.
  - intros H. split; [reflexivity | exact H].
  - intros [_ H]. exact H.
  - discriminate.
  - intros [H _]. discriminate.
Qed.

Lemma ereport_if_normal (cond : bool) (e : ErrorData) :
  ereport_if cond e = Normal <-> cond = false.
Proof. destruct cond; simpl; split; congruence. Qed.

Lemma compare_thresholds_normal (g : globals) (t : tally) :
  compare_thresholds g t = Normal <->
  passMinNumChar g <= number_count t /\
  passMinSpcChar g <= spc_char_count t /\
  passMinUpperChar g <= upper_count t /\
  passMinLowerChar g <= lower_count t.
Proof.
  unfold compare_thresholds.
  destruct (Z.ltb_spec (number_count t) (passMinNumChar g));
    [split; [discriminate | lia]|].
  destruct (Z.ltb_spec (spc_char_count t) (passMinSpcChar g));
    [split; [discriminate | lia]|].
  destruct (Z.ltb_spec (upper_count t) (passMinUpperChar g));
    [split; [discriminate | lia]|].
  destruct (Z.ltb_spec (lower_count t) (passMinLowerChar g));
    [split; [discriminate | lia]|].
  split; [lia | reflexivity].
Qed.

(** [check_policy] passes exactly the passwords with enough bytes in each
    of the four buckets. *)
Lemma check_policy_normal (locale : ctype) (g : globals) (password : cstring) :
  strlen password <= INT_MAX ->
  check_policy locale g password = Normal <->
  passMinNumChar g <= bucket_size locale Digit password /\
  passMinSpcChar g <= bucket_size locale SpecialChar password /\
  passMinUpperChar g <= bucket_size locale Uppercase password /\
  passMinLowerChar g <= bucket_size locale Lowercase password.
Proof.
  intros Hlen. unfold check_policy.
  rewrite compare_thresholds_normal.
  destruct (count_chars_tally locale password Hlen)
    as (-> & -> & -> & -> & _).
  reflexivity.
Qed.

Lemma non_null_strstr_false (password username : cstring) :
  non_null (strstr password username) = false <->
  ~ contains password username.
Proof.
  rewrite <- strstr_contains.
  destruct (non_null (strstr password username)); split; congruence.
Qed.

(** The plaintext branch as the chain of its four checks. *)
Lemma plaintext_chain (locale : ctype)
      (plain_crypt_verify : cstring -> cstring -> cstring -> Z)
      (USE_CRACKLIB : option (cstring -> option cstring))
      (g : globals) (username password : cstring)
      (validuntil_time : Z) (validuntil_null : bool) :
  check_password locale plain_crypt_verify USE_CRACKLIB g username password
                 PASSWORD_TYPE_PLAINTEXT validuntil_time validuntil_null =
  and_then (ereport_if (pwdlen_of password <? passMinLength g) TooShort)
    (and_then
       (ereport_if (non_null (strstr password username)) ContainsUsername)
       (and_then (check_policy locale g password)
                 (cracklib_check USE_CRACKLIB password))).
Proof. reflexivity. Qed.

(** No two checks share a report. *)
Lemma check_policy_reports (locale : ctype) (g : globals)
      (password : cstring) (e : ErrorData) :
  check_policy locale g password = Raise e ->
  e <> TooShort /\ e <> ContainsUsername.
Proof.
  unfold check_policy, compare_thresholds.
  destruct (number_count _ <? _); [intros [= <-]; split; discriminate|].
  destruct (spc_char_count _ <? _); [intros [= <-]; split; discriminate|].
  destruct (upper_count _ <? _); [intros [= <-]; split; discriminate|].
  destruct (lower_count _ <? _); [intros [= <-]; split; discriminate|].
  discriminate.
Qed.

Lemma cracklib_check_reports
      (USE_CRACKLIB : option (cstring -> option cstring))
      (password : cstring) (e : ErrorData) :
  cracklib_check USE_CRACKLIB password = Raise e ->
  e <> TooShort /\ e <> ContainsUsername.
Proof.
  unfold cracklib_check. destruct USE_CRACKLIB as [FascistCheck|];
    [|discriminate].
  destruct (non_null (FascistCheck password)); simpl;
    [intros [= <-]; split; discriminate | discriminate].
Qed.

Section Acceptance.

Variable locale : ctype.
Variable plain_crypt_verify : cstring -> cstring -> cstring -> Z.
Variable USE_CRACKLIB : option (cstring -> option cstring).

Local Abbreviation evaluate :=
  (check_password locale plain_crypt_verify USE_CRACKLIB).

(** X1: a plaintext password (its length fitting an [int]) is accepted
    exactly when it is at least [passMinLength] long, does not contain the
    user name, has at least the configured number of digits, special bytes,
    upper-case and lower-case letters, and cracklib, where compiled in, has
    nothing against it. *)
Theorem accepted_iff_meets_policy (g : globals) (username password : cstring)
        (validuntil_time : Z) (validuntil_null : bool) :
  strlen password <= INT_MAX ->
  evaluate g username password PASSWORD_TYPE_PLAINTEXT
           validuntil_time validuntil_null = Accept <->
  meets_policy locale g username password /\
  cracklib_check USE_CRACKLIB password = Normal.
Proof.
  intros Hlen. rewrite plaintext_chain.
  rewrite !and_then_normal, !ereport_if_normal.
  rewrite (pwdlen_of_small _ Hlen), Z.ltb_ge, non_null_strstr_false.
  rewrite (check_policy_normal locale g password Hlen).
  unfold meets_policy. tauto.
Qed.

(** X2: an accepted plaintext password (its length fitting an [int]) is
    never shorter than the four sub-minimums taken together. *)
Theorem accepted_length_covers_sub_minimums (g : globals)
        (username password : cstring)
        (validuntil_time : Z) (validuntil_null : bool) :
  strlen password <= INT_MAX ->
  evaluate g username password PASSWORD_TYPE_PLAINTEXT
           validuntil_time validuntil_null = Accept ->
  sub_minimum_total g <= strlen password.
Proof.
  intros Hlen Hacc.
  rewrite plaintext_chain, !and_then_normal in Hacc.
  destruct Hacc as (_ & _ & Hpolicy & _).
  apply (check_policy_normal locale g password Hlen) in Hpolicy.
  pose proof (bucket_sizes_total locale password) as Htotal.
  pose proof (bucket_size_nonneg locale CaselessLetter password).
  unfold sub_minimum_total. lia.
Qed.

(** X3: lowering thresholds never turns an acceptance into a rejection: a
    plaintext password accepted under [g'] is accepted under every [g] that
    asks for no more. *)
Theorem accepted_under_weaker_policy (g g' : globals)
        (username password : cstring)
        (validuntil_time : Z) (validuntil_null : bool) :
  no_stricter g g' ->
  evaluate g' username password PASSWORD_TYPE_PLAINTEXT
           validuntil_time validuntil_null = Accept ->
  evaluate g username password PASSWORD_TYPE_PLAINTEXT
           validuntil_time validuntil_null = Accept.
Proof.
  intros (Hl & Hs & Hn & Hu & Hlo).
  rewrite !plaintext_chain, !and_then_normal, !ereport_if_normal.
  unfold check_policy. rewrite !compare_thresholds_normal, !Z.ltb_ge.
  intros (Hlen & Hname & Hcounts & Hdict).
  repeat split; try assumption; lia.
Qed.

(** X4: TooShort is reported for a plaintext password (its length fitting
    an [int]) exactly when it is shorter than [passMinLength]. *)
Theorem too_short_exact (g : globals) (username password : cstring)
        (validuntil_time : Z) (validuntil_null : bool) :
  strlen password <= INT_MAX ->
  evaluate g username password PASSWORD_TYPE_PLAINTEXT
           validuntil_time validuntil_null = Reject TooShort <->
  strlen password < passMinLength g.
Proof.
  intros Hlen. rewrite plaintext_chain, (pwdlen_of_small _ Hlen).
  destruct (Z.ltb_spec (strlen password) (passMinLength g)) as [Hlt|Hge];
    simpl.
  - tauto.
  - split; [|lia]. intros H. exfalso.
    destruct (non_null (strstr password username)); simpl in H;
      [discriminate|].
    destruct (check_policy locale g password) as [|e] eqn:Hpolicy;
      simpl in H.
    + apply cracklib_check_reports in H. tauto.
    + injection H as ->. apply check_policy_reports in Hpolicy. tauto.
Qed.

(** X5: ContainsUsername is reported for a plaintext password (its length
    fitting an [int]) exactly when it is long enough and contains the user
    name; there is no false alarm from the later checks. *)
Theorem contains_username_exact (g : globals) (username password : cstring)
        (validuntil_time : Z) (validuntil_null : bool) :
  strlen password <= INT_MAX ->
  evaluate g username password PASSWORD_TYPE_PLAINTEXT
           validuntil_time validuntil_null = Reject ContainsUsername <->
  passMinLength g <= strlen password /\ contains password username.
Proof.
  intros Hlen. rewrite plaintext_chain, (pwdlen_of_small _ Hlen).
  rewrite <- strstr_contains.
  destruct (Z.ltb_spec (strlen password) (passMinLength g)) as [Hlt|Hge];
    simpl.
  - split; [discriminate | lia].
  - destruct (non_null (strstr password username)); simpl.
    + tauto.
    + split; [| intros [_ H]; discriminate]. intros H. exfalso.
      destruct (check_policy locale g password) as [|e] eqn:Hpolicy;
        simpl in H.
      * apply cracklib_check_reports in H. tauto.
      * injection H as ->. apply check_policy_reports in Hpolicy. tauto.
Qed.

(** X6: compiling cracklib in changes nothing but acceptances: every
    rejection of the build without cracklib stays as it is, and an
    acceptance becomes DictionaryGuessable exactly when [FascistCheck]
    returns a diagnostic. *)
Theorem cracklib_only_adds_rejections
        (FascistCheck : cstring -> option cstring)
        (g : globals) (username shadow_pass : cstring)
        (password_type : PasswordType)
        (validuntil_time : Z) (validuntil_null : bool) :
  check_password locale plain_crypt_verify (Some FascistCheck) g
                 username shadow_pass password_type
                 validuntil_time validuntil_null =
  match check_password locale plain_crypt_verify None g
                       username shadow_pass password_type
                       validuntil_time validuntil_null with
  | Raise e => Raise e
  | Normal =>
      if is_plaintext password_type
      then ereport_if (non_null (FascistCheck shadow_pass))
                      DictionaryGuessable
      else Normal
  end.
Proof.
  destruct password_type; simpl.
  - rewrite !plaintext_chain.
    destruct (ereport_if _ TooShort); [|reflexivity].
    destruct (ereport_if _ ContainsUsername); [|reflexivity].
    destruct (check_policy locale g shadow_pass); reflexivity.
  - unfold check_password. simpl.
    destruct (ereport_if _ EncryptedPasswordMatchesUsername); reflexivity.
  - unfold check_password. simpl.
    destruct (ereport_if _ EncryptedPasswordMatchesUsername); reflexivity.
Qed.

End Acceptance.

(** ** More on the counting loop *)

Section Buckets.

Variable locale : ctype.

Lemma bucket_size_app (b : bucket) (p q : cstring) :
  bucket_size locale b (p ++ q) =
  bucket_size locale b p + bucket_size locale b q.
Proof. unfold bucket_size. rewrite filter_app, length_app. lia. Qed.

Lemma bucket_size_cons (b : bucket) (c : ascii) (p : cstring) :
  bucket_size locale b (c :: p) =
  (if bucket_eqb (bucket_of locale c) b then 1 else 0) +
  bucket_size locale b p.
Proof.
  unfold bucket_size. cbn [filter].
  destruct (bucket_eqb (bucket_of locale c) b); cbn [List.length]; lia.
Qed.

Lemma bucket_size_perm (b : bucket) (p q : cstring) :
  Permutation p q -> bucket_size locale b p = bucket_size locale b q.
Proof.
  induction 1 as [| c p q _ IH | c d p | p q r _ IH1 _ IH2].
  - reflexivity.
  - rewrite !bucket_size_cons, IH. reflexivity.
  - rewrite !bucket_size_cons. lia.
  - congruence.
Qed.

(** When every byte lies in bucket [b0], that bucket holds them all. *)
Lemma bucket_size_uniform (b0 b : bucket) (p : cstring) :
  Forall (fun c => bucket_of locale c = b0) p ->
  bucket_size locale b p = if bucket_eqb b0 b then strlen p else 0.
Proof.
  induction 1 as [| c p Hc _ IH].
  - destruct (bucket_eqb b0 b); reflexivity.
  - rewrite bucket_size_cons, IH, Hc.
    change (c :: p) with ([c] ++ p). rewrite strlen_app.
    change (strlen [c]) with 1.
    destruct (bucket_eqb b0 b); lia.
Qed.

Lemma bucket_size_run (b : bucket) (c : ascii) (n : Z) :
  0 <= n ->
  bucket_size locale b (run c n) =
  if bucket_eqb (bucket_of locale c) b then n else 0.
Proof.
  intros Hn.
  rewrite (bucket_size_uniform (bucket_of locale c)).
  - unfold strlen, run. rewrite repeat_length, Z2Nat.id by exact Hn.
    reflexivity.
  - unfold run. apply Forall_forall. intros x Hx.
    apply repeat_spec in Hx. subst x. reflexivity.
Qed.

(** A tally is determined by the bytes it counts. *)
Lemma tally_of_unique (t t' : tally) (seen : cstring) :
  tally_of locale t seen -> tally_of locale t' seen -> t = t'.
Proof.
  destruct t, t'. unfold tally_of. simpl.
  intros (-> & -> & -> & -> & ->) (-> & -> & -> & -> & ->). reflexivity.
Qed.

(** X7: [check_policy] does not look at the order of the bytes: two
    passwords (of a length fitting an [int]) that are permutations of each
    other get the same tallies and the same outcome. *)
Theorem check_policy_order_blind (g : globals) (p q : cstring) :
  Permutation p q ->
  strlen p <= INT_MAX ->
  count_chars locale p = count_chars locale q /\
  check_policy locale g p = check_policy locale g q.
Proof.
  intros Hperm Hlen.
  assert (Hlen' : strlen q <= INT_MAX).
  { unfold strlen in *. rewrite <- (Permutation_length Hperm). exact Hlen. }
  assert (Heq : count_chars locale p = count_chars locale q).
  { apply (tally_of_unique _ _ p); [apply count_chars_tally; exact Hlen|].
    destruct (count_chars_tally locale q Hlen') as (Hn & Hs & Hu & Hl & Ha).
    unfold tally_of.
    rewrite !(bucket_size_perm _ p q Hperm). tauto. }
  split; [exact Heq|]. unfold check_policy. rewrite Heq. reflexivity.
Qed.

(** X8: bytes added to a password that passes [check_policy] never make it
    fail, wherever they are added (the result fitting an [int]). *)
Theorem check_policy_survives_extension (g : globals)
        (before password after : cstring) :
  strlen (before ++ password ++ after) <= INT_MAX ->
  check_policy locale g password = Normal ->
  check_policy locale g (before ++ password ++ after) = Normal.
Proof.
  intros Hlen.
  assert (Hlen0 : strlen password <= INT_MAX).
  { rewrite !strlen_app in Hlen.
    pose proof (strlen_nonneg before). pose proof (strlen_nonneg after).
    lia. }
  rewrite (check_policy_normal locale g _ Hlen0).
  rewrite (check_policy_normal locale g _ Hlen).
  rewrite !bucket_size_app.
  pose proof (fun b => bucket_size_nonneg locale b before).
  pose proof (fun b => bucket_size_nonneg locale b after).
  intros (Hn & Hs & Hu & Hl).
  pose proof (H Digit). pose proof (H SpecialChar).
  pose proof (H Uppercase). pose proof (H Lowercase).
  pose proof (H0 Digit). pose proof (H0 SpecialChar).
  pose proof (H0 Uppercase). pose proof (H0 Lowercase).
  repeat split; lia.
Qed.

End Buckets.

(** In the "C" locale a byte outside ASCII is neither letter nor digit. *)
Lemma C_locale_non_ascii (c : ascii) :
  128 <= unsigned_char c -> bucket_of C_locale c = SpecialChar.
Proof.
  intros Hc. unfold bucket_of, C_locale, in_range. simpl.
  repeat match goal with
         | |- context [?a <=? ?b] => destruct (Z.leb_spec a b); try lia
         end; reflexivity.
Qed.

(** In the "C" locale every letter is upper case or lower case. *)
Lemma C_locale_no_caseless (c : ascii) :
  bucket_of C_locale c <> CaselessLetter.
Proof.
  unfold bucket_of, C_locale, in_range. simpl.
  repeat match goal with
         | |- context [?a <=? ?b] => destruct (Z.leb_spec a b); try lia
         end; simpl; discriminate.
Qed.

(** X9: in the "C" locale a password made of bytes outside ASCII (the bytes
    of multi-byte characters) is counted as special characters only. *)
Theorem non_ascii_counts_as_special (password : cstring) :
  Forall (fun c => 128 <= unsigned_char c) password ->
  strlen password <= INT_MAX ->
  count_chars C_locale password =
  {| letter_count := 0;
     number_count := 0;
     spc_char_count := strlen password;
     upper_count := 0;
     lower_count := 0 |}.
Proof.
  intros Hbytes Hlen.
  apply (tally_of_unique C_locale _ _ password).
  - apply count_chars_tally. exact Hlen.
  - assert (Hall : Forall (fun c => bucket_of C_locale c = SpecialChar)
                          password).
    { apply Forall_impl with (2 := Hbytes). apply C_locale_non_ascii. }
    unfold tally_of. simpl.
    rewrite !(bucket_size_uniform C_locale SpecialChar _ _ Hall). simpl.
    repeat split.
Qed.

(** X10: in the "C" locale [letter_count] is the sum of [upper_count] and
    [lower_count]: the branch of the loop for letters of neither case is
    never taken. *)
Theorem C_locale_letters_are_cased (password : cstring) :
  strlen password <= INT_MAX ->
  letter_count (count_chars C_locale password) =
  upper_count (count_chars C_locale password) +
  lower_count (count_chars C_locale password).
Proof.
  intros Hlen.
  destruct (count_chars_tally C_locale password Hlen)
    as (_ & _ & -> & -> & ->).
  assert (Hzero : bucket_size C_locale CaselessLetter password = 0).
  { clear Hlen. induction password as [|c password IH]; [reflexivity|].
    rewrite bucket_size_cons, IH.
    pose proof (C_locale_no_caseless c).
    destruct (bucket_of C_locale c); simpl; try reflexivity; congruence. }
  lia.
Qed.

(** ** More on loading the module *)

Lemma DefineCustomIntVariable_within (conf : guc_file) (name : string)
      (bootValue : Z) :
  admitted bootValue ->
  admitted (DefineCustomIntVariable conf name bootValue 1 INT_MAX).
Proof.
  intros Hboot. unfold DefineCustomIntVariable.
  destruct (guc_lookup name conf) as [v|]; [|exact Hboot].
  destruct (in_range 1 INT_MAX v) eqn:Hv; [|exact Hboot].
  apply in_range_admitted. exact Hv.
Qed.

Lemma define_variables_admitted (conf : guc_file) :
  admitted (passMinLength (fst (define_variables conf))) /\
  admitted (passMinSpcChar (fst (define_variables conf))) /\
  admitted (passMinNumChar (fst (define_variables conf))) /\
  admitted (passMinUpperChar (fst (define_variables conf))) /\
  admitted (passMinLowerChar (fst (define_variables conf))).
Proof.
  unfold define_variables. cbn [fst passMinLength passMinSpcChar
    passMinNumChar passMinUpperChar passMinLowerChar].
  repeat split; apply DefineCustomIntVariable_within;
    unfold admitted, INT_MAX; lia.
Qed.

(** X11: whatever is configured, loading from the unloaded state either
    returns with the flag set and the hook installed, or raises the
    configuration error with the flag clear and the hook not installed; the
    five variables are assigned in both cases. *)
Theorem load_installs_hook_or_fails (conf : guc_file) :
  policy (fst (_PG_init conf unloaded)) = fst (define_variables conf) /\
  ((snd (_PG_init conf unloaded) = Normal /\
    inited (fst (_PG_init conf unloaded)) = true /\
    check_password_hook (fst (_PG_init conf unloaded)) = true) \/
   (snd (_PG_init conf unloaded) = Raise InconsistentThresholds /\
    inited (fst (_PG_init conf unloaded)) = false /\
    check_password_hook (fst (_PG_init conf unloaded)) = false)).
Proof.
  unfold _PG_init. cbn [inited unloaded check_password_hook].
  destruct (define_variables conf) as [g out] eqn:Hdef.
  assert (Hout : out = Normal \/ out = Raise InconsistentThresholds).
  { unfold define_variables in Hdef. injection Hdef as _ <-.
    destruct (_ <? _); simpl; tauto. }
  destruct Hout as [-> | ->]; simpl; tauto.
Qed.

(** X12: initialisation happens once: after a call of [_PG_init] that
    returned, a further call returns without changing anything, whatever
    the configuration has become. *)
Theorem load_only_once (conf conf' : guc_file) (st0 st : module_state) :
  _PG_init conf st0 = (st, Normal) ->
  _PG_init conf' st = (st, Normal).
Proof.
  unfold _PG_init at 1.
  destruct (inited st0) eqn:Hinit.
  - intros [= <-]. unfold _PG_init. rewrite Hinit. reflexivity.
  - destruct (define_variables conf) as [g [|e]]; [|discriminate].
    intros [= <-]. reflexivity.
Qed.

Lemma load_only_once_witness :
  _PG_init (settings 5 2 2 2 2) (fst (_PG_init [] unloaded)) =
  (fst (_PG_init [] unloaded), Normal).
Proof.
  apply (load_only_once [] (settings 5 2 2 2 2) unloaded). reflexivity.
Defined.

(** X13: a configuration that mentions none of the five names loads the
    boot values 8, 2, 2, 2, 2, which pass the comparison. *)
Theorem unconfigured_loads_defaults (conf : guc_file) :
  (forall name, In name policy_names -> guc_lookup name conf = None) ->
  _PG_init conf unloaded =
  ({| policy := initial_globals; inited := true;
      check_password_hook := true |}, Normal).
Proof.
  intros Hnone.
  unfold _PG_init, define_variables, DefineCustomIntVariable.
  cbn [inited unloaded].
  rewrite !Hnone by (unfold policy_names; simpl; tauto).
  reflexivity.
Qed.

Lemma unconfigured_loads_defaults_witness :
  policy (fst (_PG_init [("work_mem", 4096)] unloaded)) = initial_globals.
Proof.
  refine (f_equal (fun r => policy (fst r))
            (unconfigured_loads_defaults [("work_mem", 4096)] _)).
  intros name Hin. simpl in Hin.
  repeat (destruct Hin as [<- | Hin]; [reflexivity|]). contradiction.
Defined.

Section LoadedPolicy.

Variable locale : ctype.
Variable plain_crypt_verify : cstring -> cstring -> cstring -> Z.
Variable USE_CRACKLIB : option (cstring -> option cstring).

Local Abbreviation evaluate :=
  (check_password locale plain_crypt_verify USE_CRACKLIB).

(** The first half of the acceptance criterion, for the proofs below. *)
Lemma accepted_buckets (g : globals) (username password : cstring)
      (validuntil_time : Z) (validuntil_null : bool) :
  strlen password <= INT_MAX ->
  evaluate g username password PASSWORD_TYPE_PLAINTEXT
           validuntil_time validuntil_null = Accept ->
  passMinNumChar g <= bucket_size locale Digit password /\
  passMinSpcChar g <= bucket_size locale SpecialChar password /\
  passMinUpperChar g <= bucket_size locale Uppercase password /\
  passMinLowerChar g <= bucket_size locale Lowercase password.
Proof.
  intros Hlen Hacc.
  rewrite plaintext_chain, !and_then_normal in Hacc.
  destruct Hacc as (_ & _ & Hpolicy & _).
  apply (check_policy_normal locale g password Hlen). exact Hpolicy.
Qed.

(** X14: under the variables any configuration leaves behind, the empty
    password is rejected as too short, and an accepted plaintext password
    (its length fitting an [int]) has at least one digit, one special
    byte, one upper-case and one lower-case letter: no class can be
    switched off. *)
Theorem every_class_required (conf : guc_file) (username password : cstring)
        (validuntil_time : Z) (validuntil_null : bool) :
  evaluate (fst (define_variables conf)) username []
           PASSWORD_TYPE_PLAINTEXT validuntil_time validuntil_null
  = Reject TooShort /\
  (strlen password <= INT_MAX ->
   evaluate (fst (define_variables conf)) username password
            PASSWORD_TYPE_PLAINTEXT validuntil_time validuntil_null
   = Accept ->
   1 <= bucket_size locale Digit password /\
   1 <= bucket_size locale SpecialChar password /\
   1 <= bucket_size locale Uppercase password /\
   1 <= bucket_size locale Lowercase password).
Proof.
  destruct (define_variables_admitted conf) as (Hl & Hs & Hn & Hu & Hlo).
  unfold admitted in *. split.
  - rewrite plaintext_chain. change (pwdlen_of []) with 0.
    destruct (Z.ltb_spec 0 (passMinLength (fst (define_variables conf))));
      [reflexivity | lia].
  - intros Hlen Hacc.
    destruct (accepted_buckets _ _ _ _ _ Hlen Hacc) as (? & ? & ? & ?).
    repeat split; lia.
Qed.

(** X15: when the four sub-minimums add up to more than INT_MAX (which
    the comparison of [define_variables], made in [int], can let through),
    no plaintext password whose length fits an [int] is accepted. *)
Theorem oversized_policy_accepts_nothing (g : globals)
        (username password : cstring)
        (validuntil_time : Z) (validuntil_null : bool) :
  INT_MAX < sub_minimum_total g ->
  strlen password <= INT_MAX ->
  evaluate g username password PASSWORD_TYPE_PLAINTEXT
           validuntil_time validuntil_null <> Accept.
Proof.
  intros Hbig Hlen Hacc.
  destruct (accepted_buckets _ _ _ _ _ Hlen Hacc) as (? & ? & ? & ?).
  pose proof (bucket_sizes_total locale password) as Htotal.
  pose proof (bucket_size_nonneg locale CaselessLetter password).
  unfold sub_minimum_total in Hbig. lia.
Qed.

End LoadedPolicy.

Lemma every_class_required_witness :
  1 <= bucket_size C_locale Digit (lit "Ab12!@Cd").
Proof.
  refine (proj1 (proj2 (every_class_required C_locale no_verify None []
                          (lit "alice") (lit "Ab12!@Cd") 0 true) _ _)).
  - vm_compute. discriminate.
  - reflexivity.
Defined.

Lemma oversized_policy_accepts_nothing_witness :
  snd (_PG_init (settings 8 INT_MAX INT_MAX 1 1) unloaded) = Normal /\
  check_password C_locale no_verify None
                 (policy (fst (_PG_init (settings 8 INT_MAX INT_MAX 1 1)
                                        unloaded)))
                 (lit "alice") (lit "Ab12!@Cd") PASSWORD_TYPE_PLAINTEXT 0 true
  <> Accept.
Proof.
  split; [reflexivity|].
  apply (oversized_policy_accepts_nothing C_locale no_verify None).
  - vm_compute. reflexivity.
  - vm_compute. discriminate.
Defined.

Lemma strlen_run (c : ascii) (n : Z) : 0 <= n -> strlen (run c n) = n.
Proof.
  intros Hn. unfold strlen, run. rewrite repeat_length. lia.
Qed.

(** X16: thresholds that pass the comparison of [define_variables]
    (sub-minimums not negative, their sum within the minimum length) can
    be met: in the "C" locale the password made of that many digits,
    special bytes and upper-case letters, filled up with lower-case
    letters, has exactly the minimum length and is accepted for every user
    name it does not contain. *)
Theorem consistent_policy_satisfiable (g : globals)
        (plain_crypt_verify : cstring -> cstring -> cstring -> Z)
        (username : cstring) (validuntil_time : Z) (validuntil_null : bool) :
  0 <= passMinSpcChar g -> 0 <= passMinNumChar g ->
  0 <= passMinUpperChar g -> 0 <= passMinLowerChar g ->
  sub_minimum_total g <= passMinLength g ->
  passMinLength g <= INT_MAX ->
  ~ contains (sample_password g) username ->
  strlen (sample_password g) = passMinLength g /\
  check_password C_locale plain_crypt_verify None g
                 username (sample_password g) PASSWORD_TYPE_PLAINTEXT
                 validuntil_time validuntil_null = Accept.
Proof.
  intros Hs Hn Hu Hlo Hsum Hmax Hname. unfold sub_minimum_total in Hsum.
  assert (Hlen : strlen (sample_password g) = passMinLength g).
  { unfold sample_password. rewrite !strlen_app, !strlen_run by lia. lia. }
  split; [exact Hlen|].
  assert (Hfit : strlen (sample_password g) <= INT_MAX) by lia.
  rewrite plaintext_chain, !and_then_normal, !ereport_if_normal.
  rewrite (pwdlen_of_small _ Hfit), Z.ltb_ge, non_null_strstr_false.
  rewrite (check_policy_normal C_locale g _ Hfit).
  repeat split; try assumption; try lia;
    unfold sample_password;
    rewrite !bucket_size_app, !bucket_size_run by lia;
    change (bucket_of C_locale "0"%char) with Digit;
    change (bucket_of C_locale "!"%char) with SpecialChar;
    change (bucket_of C_locale "A"%char) with Uppercase;
    change (bucket_of C_locale "a"%char) with Lowercase;
    simpl; lia.
Qed.

Lemma consistent_policy_satisfiable_witness :
  check_password C_locale no_verify None initial_globals
                 (lit "alice") (lit "00!!AAaa") PASSWORD_TYPE_PLAINTEXT 0 true
  = Accept.
Proof.
  refine (proj2 (consistent_policy_satisfiable initial_globals no_verify
                   (lit "alice") 0 true _ _ _ _ _ _ _));
    try (vm_compute; discriminate).
  apply non_null_strstr_false. reflexivity.
Defined.

(** ** The variant for servers before version 10 *)

Lemma unsigned_char_inj (x y : ascii) :
  unsigned_char x = unsigned_char y -> x = y.
Proof.
  unfold unsigned_char. intros H. apply N2Z.inj in H.
  rewrite <- (ascii_N_embedding x), <- (ascii_N_embedding y).
  f_equal. exact H.
Qed.

Lemma strcmp_zero (a b : cstring) : Legacy.strcmp a b = 0 <-> a = b.
Proof.
  revert b. induction a as [|x a IH]; intros [|y b]; simpl.
  - tauto.
  - split; discriminate.
  - split; discriminate.
  - destruct (Z.eqb_spec (unsigned_char x) (unsigned_char y)) as [Heq|Hne].
    + apply unsigned_char_inj in Heq. subst y. rewrite IH.
      split; [intros ->; reflexivity | intros [= ->]; reflexivity].
    + split.
      * destruct (unsigned_char x <? unsigned_char y); discriminate.
      * intros [= -> _]. contradiction.
Qed.

Section LegacyVariant.

Variable locale : ctype.
Variable pg_md5_encrypt : cstring -> cstring -> Z -> option cstring.
Variable USE_CRACKLIB : option (cstring -> option cstring).

(** X17: on plaintext passwords the two variants of [check_password]
    decide alike, report for report, whatever verification primitive the
    newer one is given. *)
Theorem legacy_plaintext_agrees
        (plain_crypt_verify : cstring -> cstring -> cstring -> Z)
        (g : globals) (username password : cstring)
        (validuntil_time : Z) (validuntil_null : bool) :
  Legacy.check_password locale pg_md5_encrypt USE_CRACKLIB g
                        username password Legacy.PASSWORD_TYPE_PLAINTEXT
                        validuntil_time validuntil_null =
  Legacy.lift
    (check_password locale plain_crypt_verify USE_CRACKLIB g
                    username password PASSWORD_TYPE_PLAINTEXT
                    validuntil_time validuntil_null).
Proof. rewrite plaintext_chain. reflexivity. Qed.

(** X18: for an MD5 credential the older variant raises "password
    encryption failed." when [pg_md5_encrypt] fails; otherwise it rejects
    exactly the credential that equals the encryption of the user name
    salted with itself, and returns on every other one; the thresholds are
    not consulted. *)
Theorem legacy_md5_compares_encrypted_username
        (g : globals) (username password : cstring)
        (validuntil_time : Z) (validuntil_null : bool) :
  match pg_md5_encrypt username username (to_int (strlen username)) with
  | None =>
      Legacy.check_password locale pg_md5_encrypt USE_CRACKLIB g
                            username password Legacy.PASSWORD_TYPE_MD5
                            validuntil_time validuntil_null =
      Legacy.Elog "password encryption failed." []
  | Some encrypted =>
      (password = encrypted ->
       Legacy.check_password locale pg_md5_encrypt USE_CRACKLIB g
                             username password Legacy.PASSWORD_TYPE_MD5
                             validuntil_time validuntil_null =
       Legacy.Ereport ContainsUsername) /\
      (password <> encrypted ->
       Legacy.check_password locale pg_md5_encrypt USE_CRACKLIB g
                             username password Legacy.PASSWORD_TYPE_MD5
                             validuntil_time validuntil_null =
       Legacy.Return)
  end.
Proof.
  unfold Legacy.check_password. simpl.
  destruct (pg_md5_encrypt username username (to_int (strlen username)))
    as [encrypted|]; [|reflexivity].
  destruct (Z.eqb_spec (Legacy.strcmp password encrypted) 0) as [Heq|Hne].
  - apply strcmp_zero in Heq. split; [reflexivity | contradiction].
  - split; [|reflexivity].
    intros Hsame. apply strcmp_zero in Hsame. contradiction.
Qed.

(** X19: a password type that is neither plaintext nor MD5 makes the older
    variant raise "unrecognized password type: %d." with that type,
    without looking at the password. *)
Theorem legacy_unrecognized_type
        (g : globals) (username password : cstring) (password_type : Z)
        (validuntil_time : Z) (validuntil_null : bool) :
  password_type <> Legacy.PASSWORD_TYPE_PLAINTEXT ->
  password_type <> Legacy.PASSWORD_TYPE_MD5 ->
  Legacy.check_password locale pg_md5_encrypt USE_CRACKLIB g
                        username password password_type
                        validuntil_time validuntil_null =
  Legacy.Elog "unrecognized password type: %d." [password_type].
Proof.
  intros Hplain Hmd5. unfold Legacy.check_password.
  apply Z.eqb_neq in Hplain, Hmd5. rewrite Hmd5, Hplain. reflexivity.
Qed.

End LegacyVariant.

Lemma legacy_md5_compares_encrypted_username_witness :
  Legacy.check_password C_locale mock_md5 None initial_globals
                        (lit "bob") (lit "md5bob") Legacy.PASSWORD_TYPE_MD5
                        0 true
  = Legacy.Ereport ContainsUsername /\
  Legacy.check_password C_locale mock_md5 None initial_globals
                        (lit "bob") (lit "md5eve") Legacy.PASSWORD_TYPE_MD5
                        0 true
  = Legacy.Return.
Proof.
  split.
  - apply (proj1 (legacy_md5_compares_encrypted_username
                    C_locale mock_md5 None initial_globals
                    (lit "bob") (lit "md5bob") 0 true)).
    reflexivity.
  - apply (proj2 (legacy_md5_compares_encrypted_username
                    C_locale mock_md5 None initial_globals
                    (lit "bob") (lit "md5eve") 0 true)).
    discriminate.
Defined.

Lemma legacy_unrecognized_type_witness :
  Legacy.check_password C_locale mock_md5 None initial_globals
                        (lit "bob") (lit "secret") 2 0 true
  = Legacy.Elog "unrecognized password type: %d." [2].
Proof.
  apply (legacy_unrecognized_type C_locale mock_md5 None initial_globals
           (lit "bob") (lit "secret") 2 0 true); discriminate.
Defined.

(** ** The further properties at concrete passwords *)

Lemma accepted_iff_meets_policy_witness :
  meets_policy C_locale initial_globals (lit "alice") (lit "Ab12!@Cd").
Proof.
  refine (proj1 (proj1 (accepted_iff_meets_policy C_locale no_verify None
                          initial_globals (lit "alice") (lit "Ab12!@Cd")
                          0 true _) _)).
  - vm_compute. discriminate.
  - reflexivity.
Defined.

Lemma accepted_length_covers_sub_minimums_witness :
  sub_minimum_total initial_globals <= strlen (lit "Ab12!@Cd").
Proof.
  apply (accepted_length_covers_sub_minimums C_locale no_verify None
           initial_globals (lit "alice") (lit "Ab12!@Cd") 0 true).
  - vm_compute. discriminate.
  - reflexivity.
Defined.

Lemma accepted_under_weaker_policy_witness :
  check_password C_locale no_verify None
                 {| passMinLength := 6; passMinSpcChar := 1;
                    passMinNumChar := 2; passMinUpperChar := 1;
                    passMinLowerChar := 2 |}
                 (lit "alice") (lit "Ab12!@Cd") PASSWORD_TYPE_PLAINTEXT 0 true
  = Accept.
Proof.
  apply (accepted_under_weaker_policy C_locale no_verify None _
           initial_globals).
  - unfold no_stricter. simpl. lia.
  - reflexivity.
Defined.

Lemma too_short_exact_witness :
  strlen (lit "short1!") < passMinLength initial_globals.
Proof.
  apply (too_short_exact C_locale no_verify None initial_globals
           (lit "alice") (lit "short1!") 0 true).
  - vm_compute. discriminate.
  - reflexivity.
Defined.

Lemma contains_username_exact_witness :
  passMinLength initial_globals <= strlen (lit "bobPass12!@") /\
  contains (lit "bobPass12!@") (lit "bob").
Proof.
  apply (contains_username_exact C_locale no_verify None initial_globals
           (lit "bob") (lit "bobPass12!@") 0 true).
  - vm_compute. discriminate.
  - reflexivity.
Defined.

Lemma check_policy_order_blind_witness :
  check_policy C_locale initial_globals (lit "Ab12!@Cd") =
  check_policy C_locale initial_globals (lit "bA12!@Cd").
Proof.
  apply (check_policy_order_blind C_locale initial_globals
           (lit "Ab12!@Cd") (lit "bA12!@Cd")).
  - apply perm_swap.
  - vm_compute. discriminate.
Defined.

Lemma check_policy_survives_extension_witness :
  check_policy C_locale initial_globals (lit "xxAb12!@Cd  ") = Normal.
Proof.
  apply (check_policy_survives_extension C_locale initial_globals
           (lit "xx") (lit "Ab12!@Cd") (lit "  ")).
  - vm_compute. discriminate.
  - reflexivity.
Defined.

Lemma non_ascii_counts_as_special_witness :
  spc_char_count
    (count_chars C_locale [ascii_of_nat 195; ascii_of_nat 169]) = 2.
Proof.
  refine (f_equal spc_char_count
            (non_ascii_counts_as_special
               [ascii_of_nat 195; ascii_of_nat 169] _ _)).
  - repeat constructor; vm_compute; discriminate.
  - vm_compute. discriminate.
Defined.

Lemma C_locale_letters_are_cased_witness :
  letter_count (count_chars C_locale (lit "Ab12!@Cd")) =
  upper_count (count_chars C_locale (lit "Ab12!@Cd")) +
  lower_count (count_chars C_locale (lit "Ab12!@Cd")).
Proof.
  apply (C_locale_letters_are_cased (lit "Ab12!@Cd")).
  vm_compute. discriminate.
Defined.
